(** * SpeechCopilot: the wizard of [frontend/src/App.js]

    A shallow embedding of the React component [App] and of the [speechAPI]
    helper it calls, followed by the properties of the wizard: step
    navigation and its guards, the request sent to the generation service,
    what a settled request does to the component's state, and the reset.

    The component is event driven.  Each handler runs against the state of
    the render it was created in; every state setter of the source
    ([setCurrentStep], [setWizardData], ...) replaces one state variable.
    The one asynchronous handler, [generateSpeech], is split at its [await]:
    the part before it runs when the button is clicked, the part after it
    when the [fetch] settles, possibly with other events in between. *)

From Stdlib Require Import ZArith String List Bool Lia.
From stdpp Require Import base option list gmap strings pretty.

Local Open Scope string_scope.
Local Open Scope Z_scope.

Set Warnings "-register-all".

(** ** JavaScript values *)

(** The values the component handles: strings typed or selected by the user,
    [undefined] for a property an object lacks, [null], and whatever
    [response.json()] may return.  Numbers are the integral ones (the HTTP
    status, numbers of a JSON body). *)
Inductive value : Type :=
| VUndefined
| VNull
| VBool (b : bool)
| VNum (n : Z)
| VStr (s : string)
| VArr (items : list value)
| VObj (members : list (string * value)).

(** [!!v]: what [if (v)], [!v] and [v || w] test. *)
Definition truthy (v : value) : bool :=
  match v with
  | VUndefined | VNull => false
  | VBool b => b
  | VNum n => negb (Z.eqb n 0)
  | VStr s => negb (String.eqb s "")
  | VArr _ | VObj _ => true
  end.

(** [a || b] *)
Definition js_or (a b : value) : value := if truthy a then a else b.

(** An [Error] object; only its [message] is ever read. *)
Record Error := mkError { message : string }.

(** How an expression or an awaited promise ends: with a value, or by
    throwing (rejecting). *)
Inductive completion (A : Type) : Type :=
| Return (a : A)
| Throw (e : Error).
Arguments Return {A} a.
Arguments Throw {A} e.

#[global] Instance completion_ret : MRet completion := fun A a => Return a.
#[global] Instance completion_bind : MBind completion := fun A B k c =>
  match c with
  | Return a => k a
  | Throw e => Throw e
  end.

(** [try { c } catch (error) { h error }] *)
Definition try_catch {A} (c : completion A) (h : Error -> completion A) : completion A :=
  match c with
  | Return a => Return a
  | Throw e => h e
  end.

(** Own property of an object given by its members (the keys of an object
    are distinct). *)
Fixpoint member (k : string) (ms : list (string * value)) : value :=
  match ms with
  | [] => VUndefined
  | (k', v) :: ms' => if String.eqb k k' then v else member k ms'
  end.

(** The text of the [TypeError] raised by a property read on [null] or
    [undefined] (the wording is the engine's; this is V8's). *)
Definition cannot_read (v k : string) : string :=
  "Cannot read properties of " +:+ v +:+ " (reading '" +:+ k +:+ "')".

(** [v.k] for a property name [k] that no prototype defines (the component
    reads [speech], [structure] and [suggestions] only): a member of an
    object, [undefined] on any other value, a [TypeError] on [null] and
    [undefined]. *)
Definition get_prop (v : value) (k : string) : completion value :=
  match v with
  | VUndefined => Throw (mkError (cannot_read "undefined" k))
  | VNull => Throw (mkError (cannot_read "null" k))
  | VObj ms => Return (member k ms)
  | VBool _ | VNum _ | VStr _ | VArr _ => Return VUndefined
  end.

(** [JSON.stringify v], as the JSON document its text denotes: a member
    whose value is [undefined] is left out of an object, an [undefined]
    array item becomes [null], and [undefined] itself has no text. *)
Fixpoint JSON_stringify (v : value) : option value :=
  match v with
  | VUndefined => None
  | VArr items =>
      Some (VArr (List.map (fun x => default VNull (JSON_stringify x)) items))
  | VObj members =>
      Some (VObj ((fix members_of (ms : list (string * value)) :=
                     match ms with
                     | [] => []
                     | (k, x) :: ms' =>
                         match JSON_stringify x with
                         | Some j => (k, j) :: members_of ms'
                         | None => members_of ms'
                         end
                     end) members))
  | VNull | VBool _ | VNum _ | VStr _ => Some v
  end.

(** The keys of an object, in order. *)
Definition keys (v : value) : list string :=
  match v with
  | VObj ms => List.map fst ms
  | _ => []
  end.

(** ** The network *)

(** A [fetch] call: where to, and with what [init]. *)
Record Request := {
  url : string;
  method : string;
  headers : list (string * string);
  body : option value
}.

(** A [Response]: its status and what [response.json()] settles to, the
    parsed body or the [SyntaxError] of a body that is not JSON. *)
Record Response := {
  status : Z;
  json : completion value
}.

(** [response.ok] *)
Definition ok (r : Response) : bool := (200 <=? status r) && (status r <=? 299).

(** ** The wizard's data *)

(** [wizardData] is an object whose properties are all strings; a key it
    lacks reads as [undefined]. *)
Abbreviation WizardData := (gmap string string).

(** [wizardData.k] *)
Definition field (w : WizardData) (k : string) : value :=
  match w !! k with
  | Some s => VStr s
  | None => VUndefined
  end.

(** [{...wizardData, [k]: v}] *)
Definition spread_with (w : WizardData) (k v : string) : WizardData := <[k := v]> w.

(** ** [speechAPI] *)

Definition API_BASE_URL : string :=
  "https://pjdevos-speechcopilot-production.up.railway.app".

Module speechAPI.

(** [fetch(`${API_BASE_URL}/health`)] *)
Definition testConnection_fetch : Request :=
  {| url := API_BASE_URL +:+ "/health";
     method := "GET";
     headers := [];
     body := None |}.

(** The rest of [testConnection], given how its [fetch] settled.  The
    [catch] logs and throws the error again. *)
Definition testConnection (fetched : completion Response) : completion value :=
  try_catch
    (response ← fetched;
     json response)
    (fun error => Throw error).

(** The object literal handed to [JSON.stringify]. *)
Definition payload (wizardData : WizardData) : value :=
  VObj [ ("occasion", field wizardData "occasion");
         ("audience", field wizardData "audience");
         ("tone", field wizardData "tone");
         ("length", field wizardData "length");
         ("template", field wizardData "template");
         ("topic", js_or (field wizardData "topic") (VStr ""));
         ("additional_context", js_or (field wizardData "additionalContext") (VStr ""));
         ("language", field wizardData "language") ].

(** [fetch(`${API_BASE_URL}/api/generate-speech`, {...})] *)
Definition generateSpeech_fetch (wizardData : WizardData) : Request :=
  {| url := API_BASE_URL +:+ "/api/generate-speech";
     method := "POST";
     headers := [("Content-Type", "application/json")];
     body := JSON_stringify (payload wizardData) |}.

(** The rest of [generateSpeech], given how its [fetch] settled. *)
Definition generateSpeech (fetched : completion Response) : completion value :=
  try_catch
    (response ← fetched;
     if negb (ok response)
     then Throw (mkError ("HTTP error! status: " +:+ pretty (status response)))
     else
       data ← json response;
       Return data)
    (fun error => Throw error).

End speechAPI.

(** ** The component [App] *)

(** The object [generateSpeech] stores on success. *)
Record GeneratedSpeech := {
  speech : value;
  structure : value;
  suggestions : value;
  metadata : value
}.

(** The five state variables of [App]; [None] is [null]. *)
Record Session := {
  currentStep : Z;
  wizardData : WizardData;
  generatedSpeech : option GeneratedSpeech;
  isLoading : bool;
  error : option string
}.

(** The arguments of the five [useState] calls. *)
Definition initialSession : Session :=
  {| currentStep := 0;
     wizardData :=
       <["occasion" := ""]> (<["audience" := ""]> (<["tone" := "formal"]>
       (<["length" := "5"]> (<["template" := ""]> (<["topic" := ""]>
       (<["additionalContext" := ""]> (<["language" := "english"]> ∅)))))));
     generatedSpeech := None;
     isLoading := false;
     error := None |}.

(** The state setters. *)
Definition setCurrentStep (n : Z) (s : Session) : Session :=
  {| currentStep := n; wizardData := wizardData s;
     generatedSpeech := generatedSpeech s; isLoading := isLoading s;
     error := error s |}.

Definition setWizardData (w : WizardData) (s : Session) : Session :=
  {| currentStep := currentStep s; wizardData := w;
     generatedSpeech := generatedSpeech s; isLoading := isLoading s;
     error := error s |}.

Definition setGeneratedSpeech (g : option GeneratedSpeech) (s : Session) : Session :=
  {| currentStep := currentStep s; wizardData := wizardData s;
     generatedSpeech := g; isLoading := isLoading s;
     error := error s |}.

Definition setIsLoading (b : bool) (s : Session) : Session :=
  {| currentStep := currentStep s; wizardData := wizardData s;
     generatedSpeech := generatedSpeech s; isLoading := b;
     error := error s |}.

Definition setError (e : option string) (s : Session) : Session :=
  {| currentStep := currentStep s; wizardData := wizardData s;
     generatedSpeech := generatedSpeech s; isLoading := isLoading s;
     error := e |}.

(** The [onChange] (for the template cards, [onClick]) of the control bound
    to the field [k]: [setWizardData({...wizardData, [k]: v})]. *)
Definition setField (k v : string) (s : Session) : Session :=
  setWizardData (spread_with (wizardData s) k v) s.

(** [generateSpeech], up to its [await]: the two setters, and the request
    made from the [wizardData] of this render. *)
Definition generateSpeech_begin (s : Session) : Session * Request :=
  (setError None (setIsLoading true s),
   speechAPI.generateSpeech_fetch (wizardData s)).

(** The [metadata] literal of the stored result. *)
Definition metadata_of (wizardData : WizardData) : value :=
  VObj [ ("occasion", field wizardData "occasion");
         ("audience", field wizardData "audience");
         ("tone", field wizardData "tone");
         ("length", field wizardData "length");
         ("template", field wizardData "template");
         ("language", field wizardData "language") ].

(** The object passed to [setGeneratedSpeech]; evaluating it throws when
    [result] is [null]. *)
Definition speech_of (wizardData : WizardData) (result : value) : completion GeneratedSpeech :=
  speech ← get_prop result "speech";
  structure ← get_prop result "structure";
  suggestions ← get_prop result "suggestions";
  Return {| speech := speech;
            structure := structure;
            suggestions := suggestions;
            metadata := metadata_of wizardData |}.

(** [generateSpeech], from its [await] on: [wizardData] is the one the
    handler closed over, [fetched] how the request settled, [s] the state
    by then.  The [try] stores the result and goes to step 4, the [catch]
    stores a message, the [finally] ends the loading. *)
Definition generateSpeech_resume
    (wizardData : WizardData) (fetched : completion Response) (s : Session) : Session :=
  let tried :=
    match (result ← speechAPI.generateSpeech fetched; speech_of wizardData result) with
    | Return g => setCurrentStep 4 (setGeneratedSpeech (Some g) s)
    | Throw error =>
        setError (Some ("Failed to generate speech: " +:+ message error)) s
    end in
  setIsLoading false tried.

(** What [testAPI] shows in its [alert], given how the [fetch] of
    [testConnection] settled. *)
Definition testAPI (fetched : completion Response) : string :=
  match speechAPI.testConnection fetched with
  | Return health => "API connection successful!"
  | Throw error => "API connection failed: " +:+ message error
  end.

Definition resetWizard (s : Session) : Session :=
  setError None
    (setGeneratedSpeech None
       (setWizardData
          (<["occasion" := ""]> (<["audience" := ""]> (<["tone" := "formal"]>
           (<["length" := "5"]> (<["template" := ""]> (<["topic" := ""]>
           (<["additionalContext" := ""]> ∅)))))))
          (setCurrentStep 0 s))).

Definition nextStep (s : Session) : Session :=
  if currentStep s <? 4 then setCurrentStep (currentStep s + 1) s else s.

Definition prevStep (s : Session) : Session :=
  if currentStep s >? 0 then setCurrentStep (currentStep s - 1) s else s.

(** ** What is on screen *)

(** The buttons whose handlers touch the state.  (Copy to Clipboard and
    Test API Connection read and write none of it.) *)
Inductive button : Type :=
| NextButton
| PreviousButton
| GenerateButton
| GoBackButton
| NewSpeechButton.

(** Whether the render of [s] contains the button: Previous and Next sit in
    the navigation bar ([currentStep < 4], then [> 0] and [< 3]), Generate
    in the view of step 3, the other two in the view of step 4, inside
    [generatedSpeech && ...]. *)
Definition rendered (b : button) (s : Session) : bool :=
  match b with
  | NextButton => (currentStep s <? 4) && (currentStep s <? 3)
  | PreviousButton => (currentStep s <? 4) && (currentStep s >? 0)
  | GenerateButton => currentStep s =? 3
  | GoBackButton | NewSpeechButton =>
      (currentStep s =? 4)
      && match generatedSpeech s with Some _ => true | None => false end
  end.

(** The [disabled] attribute of the button. *)
Definition disabled (b : button) (s : Session) : bool :=
  match b with
  | NextButton =>
      ((currentStep s =? 0)
       && (negb (truthy (field (wizardData s) "occasion"))
           || negb (truthy (field (wizardData s) "audience"))))
      || ((currentStep s =? 2)
          && negb (truthy (field (wizardData s) "template")))
  | GenerateButton => isLoading s
  | PreviousButton | GoBackButton | NewSpeechButton => false
  end.

(** A click reaches the handler of a button that is on screen and not
    disabled. *)
Definition clickable (b : button) (s : Session) : bool :=
  rendered b s && negb (disabled b s).

(** ** The component over time *)

(** The component together with its unsettled [generateSpeech] calls, each
    with the [wizardData] it closed over, and the generation requests sent
    so far, oldest first. *)
Record World := {
  session : Session;
  waiting : list WizardData;
  sent : list Request
}.

Definition initialWorld : World :=
  {| session := initialSession; waiting := []; sent := [] |}.

Definition with_session (f : Session -> Session) (w : World) : World :=
  {| session := f (session w); waiting := waiting w; sent := sent w |}.

(** The [onClick] of each button. *)
Definition onClick (b : button) (w : World) : World :=
  match b with
  | NextButton => with_session nextStep w
  | PreviousButton | GoBackButton => with_session prevStep w
  | NewSpeechButton => with_session resetWizard w
  | GenerateButton =>
      let '(s, request) := generateSpeech_begin (session w) in
      {| session := s;
         waiting := waiting w ++ [wizardData (session w)];
         sent := sent w ++ [request] |}
  end.

(** One event at a time: a field is edited, a button is clicked, or the
    [fetch] of the [n]-th unsettled call settles.  Edits are accepted at
    every step, which is more than the screen offers. *)
Inductive event : Type :=
| Edit (k v : string)
| Click (b : button)
| Settle (n : nat) (fetched : completion Response).

Definition step (w : World) (e : event) : World :=
  match e with
  | Edit k v => with_session (setField k v) w
  | Click b => if clickable b (session w) then onClick b w else w
  | Settle n fetched =>
      match waiting w !! n with
      | Some closed_over =>
          {| session := generateSpeech_resume closed_over fetched (session w);
             waiting := delete n (waiting w);
             sent := sent w |}
      | None => w
      end
  end.

Definition run (w : World) (events : list event) : World :=
  fold_left step events w.

(** The operations of the wizard, as the user performs them. *)
Definition advance (w : World) : World := step w (Click NextButton).
Definition submit (w : World) : World := step w (Click GenerateButton).

(** ** The controls of each step *)

(** The step whose view holds the control bound to a field of
    [wizardData]: four selects and a text input at step 0, a select at
    step 1, the template cards at step 2, the text area at step 3. *)
Definition shown_at (k : string) : option Z :=
  if existsb (String.eqb k) ["occasion"; "audience"; "topic"; "length"; "language"]
  then Some 0
  else if String.eqb k "tone" then Some 1
  else if String.eqb k "template" then Some 2
  else if String.eqb k "additionalContext" then Some 3
  else None.

(** The values the control of a field can hand to its handler: the
    [value]s of the [option]s of a select, the [id]s of the template cards;
    [None] for the two free texts. *)
Definition options (k : string) : option (list string) :=
  if String.eqb k "occasion" then
    Some [""; "conference"; "press-conference"; "corporate-event";
          "diplomatic-meeting"; "commemoration"; "policy-announcement"]
  else if String.eqb k "audience" then
    Some [""; "diplomats"; "business-leaders"; "media"; "general-public";
          "government-officials"; "academic-audience"]
  else if String.eqb k "length" then
    Some ["2"; "5"; "10"; "15"; "20"; "25"; "30"; "35"; "40"]
  else if String.eqb k "language" then
    Some ["english"; "dutch"; "french"]
  else if String.eqb k "tone" then
    Some ["formal"; "conversational"; "inspiring"; "urgent"; "conciliatory";
          "celebratory"]
  else if String.eqb k "template" then
    Some ["crisis-response"; "policy-announcement"; "diplomatic-keynote";
          "commemorative"; "persuasive"; "informational"]
  else None.

(** The screen of [s] lets the user give the field [k] the value [v]. *)
Definition offered (k v : string) (s : Session) : bool :=
  match shown_at k with
  | Some n =>
      (currentStep s =? n)
      && match options k with
         | Some vs => existsb (String.eqb v) vs
         | None => true
         end
  | None => false
  end.

(** The event can happen in the world [w]: an edit must be one the screen
    offers; a click on a button that is absent or disabled is ignored by
    [step], as is the settling of a call that does not exist. *)
Definition possible (w : World) (e : event) : bool :=
  match e with
  | Edit k v => offered k v (session w)
  | Click _ | Settle _ _ => true
  end.

(** Every event of the sequence can happen when its turn comes. *)
Fixpoint on_screen (w : World) (events : list event) : bool :=
  match events with
  | [] => true
  | e :: events' => possible w e && on_screen (step w e) events'
  end.




(** ** Notions used by the properties *)

(** A field holds a non-empty string. *)
Definition non_empty (w : WizardData) (k : string) : Prop :=
  exists v, w !! k = Some v /\ v <> "".

(** A sequence of edits, each a field and its new value. *)
Definition edits_of (fields : list (string * string)) : list event :=
  List.map (fun kv => Edit kv.1 kv.2) fields.

(** The way from the first screen to the review step. *)
Definition to_review : list event :=
  [ Edit "occasion" "conference"; Edit "audience" "media"; Edit "topic" "Trade";
    Click NextButton; Click NextButton;
    Edit "template" "persuasive"; Click NextButton ].

(** The answer of the mocked service: status 200 and the body
    [{speech: "Hello", structure: [], suggestions: []}]. *)
Definition hello_response : Response :=
  {| status := 200;
     json := Return (VObj [ ("speech", VStr "Hello");
                            ("structure", VArr []);
                            ("suggestions", VArr []) ]) |}.

(** A first speech is generated, the wizard is reset and filled in again,
    and Generate is clicked a second time. *)
Definition generate_twice : list event :=
  to_review
  ++ [Click GenerateButton; Settle 0 (Return hello_response); Click NewSpeechButton]
  ++ to_review
  ++ [Click GenerateButton].

(** While loading exactly one call is unsettled, otherwise none. *)
Definition one_in_flight (w : World) : Prop :=
  if isLoading (session w) then length (waiting w) = 1%nat else waiting w = [].

(** The six fields the request reads without a fallback. *)
Definition complete (d : WizardData) : Prop :=
  Forall (fun k => is_Some (d !! k))
         ["occasion"; "audience"; "tone"; "length"; "template"; "language"].


(** The state [resetWizard] leaves when no request is out. *)
Definition resetSession : Session :=
  {| currentStep := 0;
     wizardData := delete "language" (wizardData initialSession);
     generatedSpeech := None;
     isLoading := false;
     error := None |}.

(** The values a field can hold: those of its control and the one the
    wizard starts with; any text for the two free texts. *)
Definition admissible (k v : string) : bool :=
  match options k with
  | Some vs => existsb (String.eqb v) vs || (String.eqb k "template" && String.eqb v "")
  | None => String.eqb k "topic" || String.eqb k "additionalContext"
  end.

(** The value is not [undefined]. *)
Definition defined (v : value) : bool :=
  match v with
  | VUndefined => false
  | _ => true
  end.

(** A string or [undefined]: what a read of [wizardData] gives. *)
Definition flat (v : value) : Prop :=
  match v with
  | VStr _ | VUndefined => True
  | _ => False
  end.

(** The request was made from wizard data with the property [P]. *)
Definition made_from (P : WizardData -> Prop) (request : Request) : Prop :=
  exists d, P d /\ request = speechAPI.generateSpeech_fetch d.

(** The five fields without a fallback that no handler ever removes. *)
Definition five (d : WizardData) : Prop :=
  Forall (fun k => is_Some (d !! k))
         ["occasion"; "audience"; "tone"; "length"; "template"].

(** What holds of the component at every moment (see [run_coherent]): the
    unsettled calls match [isLoading], the step is one of the five, no
    error is stored while loading, nothing loads at step 4, a result is
    stored and no error at step 4, and a stored error is never empty. *)
Definition coherent (w : World) : Prop :=
  one_in_flight w
  /\ 0 <= currentStep (session w) <= 4
  /\ (isLoading (session w) = true ->
      currentStep (session w) <= 3 /\ error (session w) = None)
  /\ (currentStep (session w) = 4 ->
      is_Some (generatedSpeech (session w)) /\ error (session w) = None)
  /\ error (session w) <> Some "".

(** The user clicks Previous while a request is out. *)
Definition leaves_review (w : World) (e : event) : bool :=
  match e with
  | Click PreviousButton => isLoading (session w)
  | _ => false
  end.

(** No event of the sequence is a click on Previous with a request out. *)
Fixpoint waits (w : World) (events : list event) : bool :=
  match events with
  | [] => true
  | e :: events' => negb (leaves_review w e) && waits (step w e) events'
  end.

(** Every field holds a value its control can give. *)
Definition as_offered (d : WizardData) : Prop :=
  map_Forall (fun k v => admissible k v = true) d.

(** The three fields the Next button asks for are filled in. *)
Definition guarded (d : WizardData) : Prop :=
  non_empty d "occasion" /\ non_empty d "audience" /\ non_empty d "template".

(** What holds of the wizard as long as the user edits what the screen
    offers and stays at the review step while a request is out. *)
Definition in_order (w : World) : Prop :=
  one_in_flight w
  /\ (isLoading (session w) = true -> currentStep (session w) = 3)
  /\ (1 <= currentStep (session w) ->
      non_empty (wizardData (session w)) "occasion"
      /\ non_empty (wizardData (session w)) "audience")
  /\ (3 <= currentStep (session w) ->
      non_empty (wizardData (session w)) "template").


(** * Properties *)

(** ** Reading fields *)

(** What [!wizardData.k] tests. *)
Lemma truthy_field (w : WizardData) (k : string) :
  truthy (field w k) = true <-> non_empty w k.
Proof.
  unfold field, non_empty. destruct (w !! k) as [v|]; simpl.
  - rewrite negb_true_iff. split.
    + intros H. exists v. split; [done|]. by apply String.eqb_neq.
    + intros (v' & [= <-] & Hne). by apply String.eqb_neq.
  - split; [done|]. by intros (v & ? & _).
Qed.

Lemma not_truthy_field (w : WizardData) (k : string) :
  truthy (field w k) = false <-> ~ non_empty w k.
Proof.
  rewrite <- truthy_field. by destruct (truthy (field w k)).
Qed.

(** Round trip: a field just set reads as the value set, and the other
    fields as before. *)
Lemma setField_read (k v : string) (s : Session) :
  wizardData (setField k v s) !! k = Some v.
Proof. unfold setField, spread_with; simpl. apply lookup_insert_eq. Qed.

Lemma setField_read_other (k k' v : string) (s : Session) :
  k <> k' -> wizardData (setField k v s) !! k' = wizardData s !! k'.
Proof. intros. unfold setField, spread_with; simpl. by apply lookup_insert_ne. Qed.

(** ** Edits leave everything but [wizardData] alone *)

Lemma run_edits_frame (fields : list (string * string)) (w : World) :
  let w' := run w (edits_of fields) in
  currentStep (session w') = currentStep (session w)
  /\ generatedSpeech (session w') = generatedSpeech (session w)
  /\ isLoading (session w') = isLoading (session w)
  /\ error (session w') = error (session w)
  /\ waiting w' = waiting w
  /\ sent w' = sent w.
Proof.
  revert w. induction fields as [|[k v] fields IH]; intros w; simpl; [done|].
  specialize (IH (step w (Edit k v))). simpl in IH. apply IH.
Qed.

(** ** Step navigation *)

Lemma advance_at_0 (w : World) :
  currentStep (session w) = 0 ->
  advance w =
    if truthy (field (wizardData (session w)) "occasion")
       && truthy (field (wizardData (session w)) "audience")
    then with_session (setCurrentStep 1) w else w.
Proof.
  intros H0. unfold advance, step, clickable, rendered, disabled, onClick.
  rewrite H0; simpl.
  destruct (truthy (field _ "occasion")), (truthy (field _ "audience")); simpl;
    try done.
  unfold with_session, nextStep. by rewrite H0.
Qed.

Lemma advance_at_2 (w : World) :
  currentStep (session w) = 2 ->
  advance w =
    if truthy (field (wizardData (session w)) "template")
    then with_session (setCurrentStep 3) w else w.
Proof.
  intros H2. unfold advance, step, clickable, rendered, disabled, onClick.
  rewrite H2; simpl.
  destruct (truthy (field _ "template")); simpl; try done.
  unfold with_session, nextStep. by rewrite H2.
Qed.

(** C1. Whatever fields were edited before, advancing from step 0 moves to
    step 1 when [occasion] and [audience] both hold a non-empty string and
    changes nothing otherwise; advancing from step 2 moves to step 3 when
    [template] holds a non-empty string and changes nothing otherwise. *)
Theorem advance_guard (w : World) (fields : list (string * string)) :
  let w' := run w (edits_of fields) in
  (currentStep (session w) = 0 ->
     (non_empty (wizardData (session w')) "occasion"
      /\ non_empty (wizardData (session w')) "audience" ->
      currentStep (session (advance w')) = 1)
     /\ (~ (non_empty (wizardData (session w')) "occasion"
            /\ non_empty (wizardData (session w')) "audience") ->
         advance w' = w' /\ currentStep (session (advance w')) = 0))
  /\ (currentStep (session w) = 2 ->
        (non_empty (wizardData (session w')) "template" ->
         currentStep (session (advance w')) = 3)
        /\ (~ non_empty (wizardData (session w')) "template" ->
            advance w' = w' /\ currentStep (session (advance w')) = 2)).
Proof.
  intros w'. destruct (run_edits_frame fields w) as (Hstep & _).
  fold w' in Hstep. split; intros Hw; rewrite Hw in Hstep.
  - rewrite (advance_at_0 w' Hstep). split.
    + intros [Ho Ha]. apply truthy_field in Ho, Ha. by rewrite Ho, Ha.
    + intros Hn.
      destruct (truthy (field _ "occasion")) eqn:Ho;
        destruct (truthy (field _ "audience")) eqn:Ha; simpl; try done.
      destruct Hn. split; by apply truthy_field.
  - rewrite (advance_at_2 w' Hstep). split.
    + intros Ht. apply truthy_field in Ht. by rewrite Ht.
    + intros Hn. apply not_truthy_field in Hn. by rewrite Hn.
Qed.

(** With [occasion] set to "conference" and [audience] left empty the wizard
    stays at step 0; once [audience] is chosen too it moves to step 1. *)
Lemma advance_guard_witness :
  currentStep (session (advance (run initialWorld (edits_of [("occasion", "conference")])))) = 0
  /\ currentStep (session (advance (run initialWorld
       (edits_of [("occasion", "conference"); ("audience", "media")])))) = 1.
Proof.
  split.
  - apply (advance_guard initialWorld [("occasion", "conference")]); [reflexivity|].
    intros [_ (v & Hv & Hne)]. vm_compute in Hv. congruence.
  - apply (advance_guard initialWorld [("occasion", "conference"); ("audience", "media")]);
      [reflexivity|].
    split; eexists; (split; [vm_compute; reflexivity | discriminate]).
Defined.

(** ** The step index stays within the five steps *)

Lemma nextStep_range (s : Session) :
  0 <= currentStep s <= 4 -> 0 <= currentStep (nextStep s) <= 4.
Proof.
  unfold nextStep. destruct (Z.ltb_spec (currentStep s) 4); simpl; lia.
Qed.

Lemma prevStep_range (s : Session) :
  0 <= currentStep s <= 4 -> 0 <= currentStep (prevStep s) <= 4.
Proof.
  unfold prevStep. destruct (Z.gtb_spec (currentStep s) 0); simpl; lia.
Qed.

Lemma generateSpeech_resume_step (d : WizardData) (o : completion Response) (s : Session) :
  currentStep (generateSpeech_resume d o s) = 4
  \/ currentStep (generateSpeech_resume d o s) = currentStep s.
Proof.
  unfold generateSpeech_resume.
  destruct (_ ← speechAPI.generateSpeech o; speech_of d _); simpl; auto.
Qed.

Lemma step_range (w : World) (e : event) :
  0 <= currentStep (session w) <= 4 ->
  0 <= currentStep (session (step w e)) <= 4.
Proof.
  intros Hr. destruct e as [k v|b|n o]; simpl.
  - done.
  - destruct (clickable b (session w)); [|done].
    destruct b; simpl; auto using nextStep_range, prevStep_range; lia.
  - destruct (waiting w !! n) as [d|]; [|done]. cbn [session].
    destruct (generateSpeech_resume_step d o (session w)) as [-> | ->]; lia.
Qed.

Lemma run_range (events : list event) (w : World) :
  0 <= currentStep (session w) <= 4 ->
  0 <= currentStep (session (run w events)) <= 4.
Proof.
  revert w. induction events as [|e events IH]; intros w Hr; simpl; [done|].
  apply IH. by apply step_range.
Qed.

(** C8. An event takes a step index within [0,4] to one within [0,4].
    [prevStep] at step 0 and [nextStep] at step 4 change nothing, and
    neither do clicks there (the buttons are not on screen); at any later
    step [prevStep] lowers the index by one and keeps the result, the error
    and the rest of the state. *)
Theorem currentStep_in_range (w : World) (e : event) :
  0 <= currentStep (session w) <= 4 ->
  0 <= currentStep (session (step w e)) <= 4
  /\ (currentStep (session w) = 0 ->
      prevStep (session w) = session w
      /\ step w (Click PreviousButton) = w
      /\ step w (Click GoBackButton) = w)
  /\ (currentStep (session w) > 0 ->
      prevStep (session w) = setCurrentStep (currentStep (session w) - 1) (session w)
      /\ currentStep (prevStep (session w)) = currentStep (session w) - 1
      /\ generatedSpeech (prevStep (session w)) = generatedSpeech (session w)
      /\ error (prevStep (session w)) = error (session w))
  /\ (currentStep (session w) = 4 ->
      nextStep (session w) = session w
      /\ step w (Click NextButton) = w).
Proof.
  intros Hr. split; [by apply step_range|]. repeat split.
  - unfold prevStep. by rewrite H.
  - unfold step, clickable, rendered. by rewrite H.
  - unfold step, clickable, rendered. by rewrite H.
  - unfold prevStep. destruct (Z.gtb_spec (currentStep (session w)) 0); [done|lia].
  - unfold prevStep. destruct (Z.gtb_spec (currentStep (session w)) 0); [done|lia].
  - unfold prevStep. by destruct (currentStep (session w) >? 0).
  - unfold prevStep. by destruct (currentStep (session w) >? 0).
  - unfold nextStep. by rewrite H.
  - unfold step, clickable, rendered. by rewrite H.
Qed.

(** On the first screen a click on Next keeps the index in range and a
    click on Previous does nothing. *)
Lemma currentStep_in_range_witness :
  0 <= currentStep (session (step initialWorld (Click NextButton))) <= 4
  /\ step initialWorld (Click PreviousButton) = initialWorld.
Proof.
  assert (Hr : 0 <= currentStep (session initialWorld) <= 4) by (simpl; lia).
  destruct (currentStep_in_range initialWorld (Click NextButton) Hr)
    as (Hin & Hprev & _).
  split; [exact Hin|]. by apply Hprev.
Defined.

(** ** At most one request in flight *)

Lemma generateSpeech_resume_isLoading (d : WizardData) (o : completion Response) (s : Session) :
  isLoading (generateSpeech_resume d o s) = false.
Proof. reflexivity. Qed.

Lemma nextStep_isLoading (s : Session) : isLoading (nextStep s) = isLoading s.
Proof. unfold nextStep. by destruct (currentStep s <? 4). Qed.

Lemma prevStep_isLoading (s : Session) : isLoading (prevStep s) = isLoading s.
Proof. unfold prevStep. by destruct (currentStep s >? 0). Qed.

Lemma clickable_generate (s : Session) :
  clickable GenerateButton s = true <-> currentStep s = 3 /\ isLoading s = false.
Proof.
  unfold clickable; simpl.
  rewrite andb_true_iff, negb_true_iff, Z.eqb_eq. tauto.
Qed.

Lemma step_one_in_flight (w : World) (e : event) :
  one_in_flight w -> one_in_flight (step w e).
Proof.
  unfold one_in_flight. intros Hw. destruct e as [k v|b|n o]; simpl.
  - done.
  - destruct (clickable b (session w)) eqn:Hc; [|done].
    destruct b; cbn [onClick with_session session waiting].
    + by rewrite nextStep_isLoading.
    + by rewrite prevStep_isLoading.
    + apply clickable_generate in Hc as [_ Hl]. rewrite Hl in Hw.
      simpl. by rewrite Hw.
    + by rewrite prevStep_isLoading.
    + done.
  - destruct (waiting w !! n) as [d|] eqn:Hn; [|done].
    cbn [session waiting]. rewrite generateSpeech_resume_isLoading.
    destruct (isLoading (session w)).
    + destruct (waiting w) as [|d0 [|d1 l]]; try done.
      destruct n as [|n]; [done|]. by destruct n.
    + by rewrite Hw in Hn.
Qed.

Lemma run_one_in_flight (events : list event) (w : World) :
  one_in_flight w -> one_in_flight (run w events).
Proof.
  revert w. induction events as [|e events IH]; intros w Hw; simpl; [done|].
  apply IH. by apply step_one_in_flight.
Qed.

Lemma step_sent (w : World) (e : event) :
  sent (step w e) = sent w
  \/ (e = Click GenerateButton
      /\ isLoading (session w) = false
      /\ sent (step w e)
         = (sent w ++ [speechAPI.generateSpeech_fetch (wizardData (session w))])%list).
Proof.
  destruct e as [k v|b|n o]; simpl; [by left| |].
  - unfold clickable. destruct b; simpl;
      try (destruct (_ && _); by left).
    destruct (currentStep (session w) =? 3); simpl; [|by left].
    destruct (isLoading (session w)); simpl; [by left|by right].
  - destruct (waiting w !! n); by left.
Qed.

(** C7. A click on Generate while [isLoading] changes nothing: no request
    is sent and the state is as before.  A click at step 3 while not loading
    sends exactly one request.  After any sequence of events at most one
    call is unsettled, exactly one while loading, and an event that sends a
    request finds none unsettled. *)
Theorem at_most_one_in_flight (w : World) (events : list event) :
  (isLoading (session w) = true -> submit w = w)
  /\ (currentStep (session w) = 3 -> isLoading (session w) = false ->
      sent (submit w)
      = (sent w ++ [speechAPI.generateSpeech_fetch (wizardData (session w))])%list)
  /\ let w' := run initialWorld events in
     (length (waiting w') <= 1)%nat
     /\ (isLoading (session w') = true <-> length (waiting w') = 1%nat)
     /\ forall e, sent (step w' e) <> sent w' ->
          waiting w' = [] /\ length (waiting (step w' e)) = 1%nat.
Proof.
  split; [|split].
  - intros Hl. unfold submit, step, clickable; simpl. rewrite Hl.
    by rewrite andb_false_r.
  - intros H3 Hl. unfold submit, step.
    assert (clickable GenerateButton (session w) = true) as ->
      by by apply clickable_generate.
    done.
  - intros w'.
    assert (Hinv : one_in_flight w') by by apply run_one_in_flight.
    unfold one_in_flight in Hinv.
    split; [|split].
    + destruct (isLoading (session w')); rewrite Hinv; simpl; lia.
    + destruct (isLoading (session w')); rewrite Hinv; simpl; split; done.
    + intros e Hsent.
      destruct (step_sent w' e) as [Heq|(-> & Hl & Heq)]; [done|].
      rewrite Hl in Hinv. split; [done|].
      unfold step in Hsent |- *.
      destruct (clickable GenerateButton (session w')); [|done].
      simpl. by rewrite Hinv.
Qed.

(** At the review step a first click sends one request; a second click
    before it settles sends none and leaves the state as it is. *)
Lemma at_most_one_in_flight_witness :
  let w := run initialWorld (to_review ++ [Click GenerateButton]) in
  submit w = w /\ length (sent (submit w)) = 1%nat.
Proof.
  intros w.
  destruct (at_most_one_in_flight w []) as (Hidle & _).
  rewrite (Hidle eq_refl). split; reflexivity.
Defined.

(** ** A submission and its outcome *)

(** The world once Generate was clicked at step 3 while not loading. *)
Lemma submit_accepted (w : World) :
  currentStep (session w) = 3 -> isLoading (session w) = false ->
  submit w =
    {| session := setError None (setIsLoading true (session w));
       waiting := waiting w ++ [wizardData (session w)];
       sent := sent w ++ [speechAPI.generateSpeech_fetch (wizardData (session w))] |}.
Proof.
  intros H3 Hl. unfold submit, step.
  assert (clickable GenerateButton (session w) = true) as ->
    by by apply clickable_generate.
  done.
Qed.

(** Edits while the request is out do not touch the unsettled call. *)
Lemma settle_after_submit
    (w : World) (during : list (string * string)) (fetched : completion Response) :
  currentStep (session w) = 3 -> isLoading (session w) = false ->
  let w1 := run (submit w) (edits_of during) in
  session (step w1 (Settle (length (waiting w)) fetched))
  = generateSpeech_resume (wizardData (session w)) fetched (session w1).
Proof.
  intros H3 Hl w1.
  destruct (run_edits_frame during (submit w)) as (_ & _ & _ & _ & Hwait & _).
  fold w1 in Hwait. unfold step. rewrite Hwait, (submit_accepted w H3 Hl).
  cbn [waiting]. by rewrite list_lookup_middle.
Qed.

Lemma speech_of_metadata (d : WizardData) (v : value) :
  v <> VNull -> v <> VUndefined ->
  exists g, speech_of d v = Return g /\ metadata g = metadata_of d.
Proof. intros Hn Hu. destruct v; try done; by eexists. Qed.

Lemma generateSpeech_ok (r : Response) :
  ok r = true -> speechAPI.generateSpeech (Return r) = json r.
Proof.
  intros Hok. unfold speechAPI.generateSpeech; simpl. rewrite Hok; simpl.
  by destruct (json r).
Qed.

Lemma generateSpeech_not_ok (r : Response) :
  ok r = false ->
  speechAPI.generateSpeech (Return r)
  = Throw (mkError ("HTTP error! status: " +:+ pretty (status r))).
Proof. intros Hok. unfold speechAPI.generateSpeech; simpl. by rewrite Hok. Qed.

(** C2. At step 3, a submission answered with status 200 and a JSON object
    whose [speech] is "Hello" ends at step 4 with that speech stored, no
    error, and the loading over. *)
Theorem submit_success (w : World) (r : Response) (ms : list (string * value)) :
  currentStep (session w) = 3 ->
  isLoading (session w) = false ->
  status r = 200 ->
  json r = Return (VObj ms) ->
  member "speech" ms = VStr "Hello" ->
  let w' := step (submit w) (Settle (length (waiting w)) (Return r)) in
  currentStep (session w') = 4
  /\ (exists g, generatedSpeech (session w') = Some g /\ speech g = VStr "Hello")
  /\ error (session w') = None
  /\ isLoading (session w') = false.
Proof.
  intros H3 Hl Hst Hjson Hspeech w'.
  assert (Hs : session w' = generateSpeech_resume (wizardData (session w))
                              (Return r) (session (submit w)))
    by exact (settle_after_submit w [] (Return r) H3 Hl).
  rewrite Hs, (submit_accepted w H3 Hl).
  unfold generateSpeech_resume.
  rewrite generateSpeech_ok by (unfold ok; by rewrite Hst).
  rewrite Hjson. simpl. rewrite Hspeech. eauto 10.
Qed.

Lemma submit_success_witness :
  let w := step (submit (run initialWorld to_review)) (Settle 0 (Return hello_response)) in
  currentStep (session w) = 4
  /\ (exists g, generatedSpeech (session w) = Some g /\ speech g = VStr "Hello")
  /\ error (session w) = None
  /\ isLoading (session w) = false.
Proof.
  exact (submit_success (run initialWorld to_review) hello_response _
           eq_refl eq_refl eq_refl eq_refl eq_refl).
Defined.

(** What the [catch] of [generateSpeech] stores for a failed request. *)
Lemma generateSpeech_resume_failed
    (d : WizardData) (fetched : completion Response) (e : Error) (s : Session) :
  speechAPI.generateSpeech fetched = Throw e ->
  generateSpeech_resume d fetched s
  = setIsLoading false
      (setError (Some ("Failed to generate speech: " +:+ message e)) s).
Proof. intros He. unfold generateSpeech_resume. by rewrite He. Qed.

(** C3. At step 3, a submission whose request throws, or is answered with a
    status outside 200..299, leaves the step, the stored result and the
    wizard data as they were, ends the loading, and stores a non-empty
    message: "Failed to generate speech: " followed by the thrown message,
    respectively by "HTTP error! status: " and the status in decimal. *)
Theorem submit_failure (w : World) (fetched : completion Response) :
  currentStep (session w) = 3 ->
  isLoading (session w) = false ->
  (exists e, fetched = Throw e) \/ (exists r, fetched = Return r /\ ok r = false) ->
  let w' := step (submit w) (Settle (length (waiting w)) fetched) in
  currentStep (session w') = 3
  /\ isLoading (session w') = false
  /\ generatedSpeech (session w') = generatedSpeech (session w)
  /\ wizardData (session w') = wizardData (session w)
  /\ exists msg,
       error (session w') = Some msg
       /\ msg <> ""
       /\ (forall e, fetched = Throw e ->
             msg = "Failed to generate speech: " +:+ message e)
       /\ (forall r, fetched = Return r ->
             msg = "Failed to generate speech: HTTP error! status: "
                   +:+ pretty (status r)).
Proof.
  intros H3 Hl Hfail w'.
  assert (Hs : session w' = generateSpeech_resume (wizardData (session w))
                              fetched (session (submit w)))
    by exact (settle_after_submit w [] fetched H3 Hl).
  rewrite Hs, (submit_accepted w H3 Hl). cbn [session].
  destruct Hfail as [[e ->]|(r & -> & Hok)].
  - rewrite (generateSpeech_resume_failed _ _ e) by done. simpl.
    repeat split; try done. eexists. repeat split; try done.
    by intros e' [= <-].
  - rewrite (generateSpeech_resume_failed _ _ _ _ (generateSpeech_not_ok r Hok)).
    simpl. repeat split; try done. eexists. repeat split; try done.
    by intros r' [= <-].
Qed.

(** The service answers 500: the wizard stays at the review step and shows
    the message with the status in it. *)
Lemma submit_failure_witness :
  let w := step (submit (run initialWorld to_review))
             (Settle 0 (Return {| status := 500; json := Return VNull |})) in
  currentStep (session w) = 3
  /\ error (session w) = Some "Failed to generate speech: HTTP error! status: 500".
Proof.
  intros w.
  destruct (submit_failure (run initialWorld to_review)
              (Return {| status := 500; json := Return VNull |})
              eq_refl eq_refl (or_intror (ex_intro _ _ (conj eq_refl eq_refl))))
    as (Hstep & _ & _ & _ & msg & Hmsg & _ & _ & Hhttp).
  split; [exact Hstep|].
  rewrite (Hhttp _ eq_refl) in Hmsg. exact Hmsg.
Defined.

(** ** The metadata of a stored result *)

Lemma run_edits_generatedSpeech (fields : list (string * string)) (w : World) :
  generatedSpeech (session (run w (edits_of fields))) = generatedSpeech (session w).
Proof. by destruct (run_edits_frame fields w) as (_ & ? & _). Qed.

(** C5, as the code has it.  A successful submission stores, as [metadata],
    the six fields [occasion], [audience], [tone], [length], [template] and
    [language] with the values [wizardData] had when Generate was clicked;
    [topic] is not among them.  Edits made while the request is out or after
    the result is stored do not change it. *)
Theorem metadata_snapshot
    (w : World) (r : Response) (v : value) (during after : list (string * string)) :
  currentStep (session w) = 3 ->
  isLoading (session w) = false ->
  ok r = true ->
  json r = Return v ->
  v <> VNull ->
  v <> VUndefined ->
  let submitted := wizardData (session w) in
  let w1 := run (submit w) (edits_of during) in
  let w2 := step w1 (Settle (length (waiting w)) (Return r)) in
  let w3 := run w2 (edits_of after) in
  exists g,
    generatedSpeech (session w3) = Some g
    /\ metadata g =
         VObj [ ("occasion", field submitted "occasion");
                ("audience", field submitted "audience");
                ("tone", field submitted "tone");
                ("length", field submitted "length");
                ("template", field submitted "template");
                ("language", field submitted "language") ].
Proof.
  intros H3 Hl Hok Hjson Hn Hu submitted w1 w2 w3.
  destruct (speech_of_metadata submitted v Hn Hu) as (g & Hg & Hmeta).
  exists g. split; [|exact Hmeta].
  unfold w3. rewrite run_edits_generatedSpeech.
  unfold w2, w1. rewrite (settle_after_submit w during (Return r) H3 Hl).
  unfold generateSpeech_resume.
  rewrite (generateSpeech_ok r Hok), Hjson. simpl.
  fold submitted. by rewrite Hg.
Qed.

(** The topic is changed while the request is out and the tone after the
    result arrived: the metadata still has the tone chosen at the click, and
    six keys. *)
Lemma metadata_snapshot_witness :
  let w1 := run (submit (run initialWorld to_review)) (edits_of [("topic", "Climate")]) in
  let w2 := step w1 (Settle 0 (Return hello_response)) in
  let w3 := run w2 (edits_of [("tone", "urgent")]) in
  exists g,
    generatedSpeech (session w3) = Some g
    /\ metadata g =
         VObj [ ("occasion", VStr "conference"); ("audience", VStr "media");
                ("tone", VStr "formal"); ("length", VStr "5");
                ("template", VStr "persuasive"); ("language", VStr "english") ].
Proof.
  exact (metadata_snapshot (run initialWorld to_review) hello_response _
           [("topic", "Climate")] [("tone", "urgent")]
           eq_refl eq_refl eq_refl eq_refl
           ltac:(discriminate) ltac:(discriminate)).
Defined.

(** C5, as stated, fails: with the topic "Trade" entered, the metadata of
    the stored result has no [topic]. *)
Lemma metadata_omits_topic :
  let w := run initialWorld to_review in
  let w' := step (submit w) (Settle 0 (Return hello_response)) in
  field (wizardData (session w)) "topic" = VStr "Trade"
  /\ (keys ∘ metadata) <$> generatedSpeech (session w')
     = Some ["occasion"; "audience"; "tone"; "length"; "template"; "language"]
  /\ (fun g => get_prop (metadata g) "topic") <$> generatedSpeech (session w')
     = Some (Return VUndefined).
Proof. repeat split. Qed.

(** ** The health check *)

(** C9. [testConnection] never looks at the status: whatever it is, a body
    that parses is returned, and [testAPI] then reports success, also for a
    500.  The call throws exactly when the [fetch] throws or the body does
    not parse, with that very error. *)
Theorem testConnection_ignores_status
    (st : Z) (v : value) (fetched : completion Response) :
  speechAPI.testConnection (Return {| status := st; json := Return v |}) = Return v
  /\ testAPI (Return {| status := 500; json := Return v |})
     = "API connection successful!"
  /\ forall e,
       speechAPI.testConnection fetched = Throw e
       <-> fetched = Throw e \/ exists r, fetched = Return r /\ json r = Throw e.
Proof.
  repeat split.
  - destruct fetched as [r|e']; unfold speechAPI.testConnection; simpl.
    + destruct (json r) eqn:Hj; simpl; [done|]. intros [= ->]. right. eauto.
    + intros [= ->]. by left.
  - intros [->|(r & -> & Hj)]; unfold speechAPI.testConnection; simpl; [done|].
    by rewrite Hj.
Qed.

(** ** The reset *)

Lemma run_edits_lookup_other (key : string) (fields : list (string * string)) (w : World) :
  Forall (fun kv => kv.1 <> key) fields ->
  wizardData (session (run w (edits_of fields))) !! key
  = wizardData (session w) !! key.
Proof.
  intros Hne. revert w.
  induction Hne as [|[k v] fields Hk _ IH]; intros w; simpl; [done|].
  rewrite IH. unfold with_session; simpl. by apply lookup_insert_ne.
Qed.

Lemma run_edits_lookup_is_Some (key : string) (fields : list (string * string)) (w : World) :
  is_Some (wizardData (session w) !! key) ->
  is_Some (wizardData (session (run w (edits_of fields))) !! key).
Proof.
  revert w. induction fields as [|[k v] fields IH]; intros w Hw; simpl; [done|].
  apply IH. unfold with_session; simpl. unfold spread_with.
  rewrite lookup_insert. by case_decide.
Qed.

Lemma field_is_Some (d : WizardData) (k : string) :
  is_Some (d !! k) -> exists s, field d k = VStr s.
Proof. intros [s Hs]. unfold field. rewrite Hs. eauto. Qed.

Lemma js_or_field_string (d : WizardData) (k : string) :
  exists s, js_or (field d k) (VStr "") = VStr s.
Proof.
  unfold js_or, field. destruct (d !! k) as [s|]; simpl; [|eauto].
  destruct (negb (String.eqb s "")); eauto.
Qed.

(** What [resetWizard] does to every state. *)
Lemma resetWizard_spec (s : Session) :
  let s' := resetWizard s in
  currentStep s' = 0
  /\ generatedSpeech s' = None
  /\ error s' = None
  /\ isLoading s' = isLoading s
  /\ wizardData s' !! "occasion" = Some ""
  /\ wizardData s' !! "audience" = Some ""
  /\ wizardData s' !! "tone" = Some "formal"
  /\ wizardData s' !! "length" = Some "5"
  /\ wizardData s' !! "template" = Some ""
  /\ wizardData s' !! "topic" = Some ""
  /\ wizardData s' !! "additionalContext" = Some ""
  /\ wizardData s' !! "language" = None.
Proof. repeat split. Qed.

(** C10. After [resetWizard] the wizard data has no [language], whatever
    it held before: the field reads as [undefined], and so it does after
    any edits of other fields.  A request made then gets [undefined] for
    [language] in its object, and its JSON body has the remaining seven
    keys only. *)
Theorem resetWizard_drops_language (w : World) (fields : list (string * string)) :
  Forall (fun kv => kv.1 <> "language") fields ->
  let w' := run (onClick NewSpeechButton w) (edits_of fields) in
  let d := wizardData (session w') in
  wizardData (resetWizard (session w)) !! "language" = None
  /\ field d "language" = VUndefined
  /\ get_prop (speechAPI.payload d) "language" = Return VUndefined
  /\ exists doc,
       body (generateSpeech_begin (session w')).2 = Some doc
       /\ keys doc = ["occasion"; "audience"; "tone"; "length"; "template";
                      "topic"; "additional_context"]
       /\ get_prop doc "language" = Return VUndefined.
Proof.
  intros Hne w' d.
  assert (Hlang : d !! "language" = None)
    by (unfold d, w'; by rewrite run_edits_lookup_other).
  assert (Hf : field d "language" = VUndefined) by (unfold field; by rewrite Hlang).
  assert (Hsome : forall k, is_Some (wizardData (resetWizard (session w)) !! k) ->
                            exists s, field d k = VStr s).
  { intros k Hk. apply field_is_Some. unfold d, w'.
    by apply run_edits_lookup_is_Some. }
  destruct (Hsome "occasion") as [o Ho]; [by eexists|].
  destruct (Hsome "audience") as [a Ha]; [by eexists|].
  destruct (Hsome "tone") as [t Ht]; [by eexists|].
  destruct (Hsome "length") as [l Hlen]; [by eexists|].
  destruct (Hsome "template") as [m Hm]; [by eexists|].
  destruct (js_or_field_string d "topic") as [p Hp].
  destruct (js_or_field_string d "additionalContext") as [c Hc].
  split; [done|]. split; [done|].
  split; [simpl; by rewrite Hf|].
  simpl. fold w' d. rewrite Ho, Ha, Ht, Hlen, Hm, Hp, Hc, Hf. simpl.
  eexists. split; [done|]. by split.
Qed.

(** A reset of the first screen, then the two selections again. *)
Lemma resetWizard_drops_language_witness :
  let w := run (onClick NewSpeechButton initialWorld)
             (edits_of [("occasion", "conference"); ("audience", "media")]) in
  field (wizardData (session initialWorld)) "language" = VStr "english"
  /\ field (wizardData (session w)) "language" = VUndefined.
Proof.
  split; [reflexivity|].
  refine (proj1 (proj2 (resetWizard_drops_language initialWorld
            [("occasion", "conference"); ("audience", "media")] _))).
  repeat constructor; discriminate.
Defined.

(** C4 at a concrete state: [language], "english" in the initial state, is
    not restored by [resetWizard] but gone. *)
Lemma resetWizard_language_not_restored :
  wizardData initialSession !! "language" = Some "english"
  /\ wizardData (resetWizard (setField "language" "dutch" initialSession)) !! "language"
     = None
  /\ wizardData (resetWizard initialSession) <> wizardData initialSession.
Proof.
  repeat split. intros Heq.
  apply (f_equal (fun d : WizardData => d !! "language")) in Heq. discriminate.
Qed.

(** ** The request *)

(** A request made from complete wizard data: a POST to the generation
    endpoint whose JSON body has the eight keys, each with a string. *)
Lemma generateSpeech_fetch_complete (d : WizardData) :
  complete d ->
  let request := speechAPI.generateSpeech_fetch d in
  url request = API_BASE_URL +:+ "/api/generate-speech"
  /\ method request = "POST"
  /\ exists o a t l m p c g,
       body request =
         Some (VObj [ ("occasion", VStr o); ("audience", VStr a); ("tone", VStr t);
                      ("length", VStr l); ("template", VStr m); ("topic", VStr p);
                      ("additional_context", VStr c); ("language", VStr g) ])
       /\ d !! "length" = Some l
       /\ (d !! "topic" = None -> p = "")
       /\ (d !! "additionalContext" = None -> c = "").
Proof.
  unfold complete. rewrite !Forall_cons.
  intros ([o Ho] & [a Ha] & [t Ht] & [l Hl] & [m Hm] & [g Hg] & _).
  cbv zeta. split; [done|]. split; [done|].
  unfold speechAPI.generateSpeech_fetch, speechAPI.payload, js_or, field.
  cbn [body]. rewrite Ho, Ha, Ht, Hl, Hm, Hg.
  destruct (d !! "topic") as [p|], (d !! "additionalContext") as [c|]; simpl;
    repeat match goal with
           | |- context [String.eqb ?s ""] => destruct (String.eqb s ""); simpl
           end;
    do 8 eexists; (split; [reflexivity|]); repeat split; done.
Qed.

(** C6 at that input: the first request has the eight keys, the second,
    made after the reset, has no [language]. *)
Lemma request_after_reset_lacks_language :
  List.map (fun request => keys <$> body request) (sent (run initialWorld generate_twice))
  = [ Some ["occasion"; "audience"; "tone"; "length"; "template"; "topic";
            "additional_context"; "language"];
      Some ["occasion"; "audience"; "tone"; "length"; "template"; "topic";
            "additional_context"] ].
Proof. reflexivity. Qed.

(** Until the wizard is reset its data stays complete, so every request
    sent until then has the eight keys. *)
Lemma complete_initial : complete (wizardData initialSession).
Proof. unfold complete. repeat constructor; by eexists. Qed.

Lemma generateSpeech_resume_wizardData
    (d : WizardData) (o : completion Response) (s : Session) :
  wizardData (generateSpeech_resume d o s) = wizardData s.
Proof.
  unfold generateSpeech_resume.
  by destruct (_ ← speechAPI.generateSpeech o; speech_of d _).
Qed.

Lemma step_complete (w : World) (e : event) :
  e <> Click NewSpeechButton ->
  complete (wizardData (session w)) ->
  complete (wizardData (session (step w e))).
Proof.
  intros He Hc. destruct e as [k v|b|n o]; simpl.
  - unfold complete, spread_with in *. eapply Forall_impl; [exact Hc|].
    intros key Hkey; simpl. rewrite lookup_insert. by case_decide.
  - destruct (clickable b (session w)); [|done].
    destruct b; simpl; try done.
    + unfold nextStep. by destruct (currentStep (session w) <? 4).
    + unfold prevStep. by destruct (currentStep (session w) >? 0).
    + unfold prevStep. by destruct (currentStep (session w) >? 0).
  - destruct (waiting w !! n) as [d|]; [|done]. cbn [session].
    by rewrite generateSpeech_resume_wizardData.
Qed.

Lemma sent_complete_until_reset (events : list event) (w : World) :
  Forall (fun e => e <> Click NewSpeechButton) events ->
  complete (wizardData (session w)) ->
  Forall (fun request => exists d, complete d /\ request = speechAPI.generateSpeech_fetch d)
         (sent w) ->
  Forall (fun request => exists d, complete d /\ request = speechAPI.generateSpeech_fetch d)
         (sent (run w events)).
Proof.
  intros Hev. revert w.
  induction Hev as [|e events He _ IH]; intros w Hc Hs; simpl; [done|].
  apply IH; [by apply step_complete|].
  destruct (step_sent w e) as [->|(_ & _ & ->)]; [done|].
  apply Forall_app. split; [done|]. repeat constructor. eauto.
Qed.

(** X1. Every request sent before the first reset is a POST to the generation
    endpoint whose JSON body has exactly the eight keys, each with a
    string. *)
Theorem requests_until_reset (events : list event) :
  Forall (fun e => e <> Click NewSpeechButton) events ->
  Forall (fun request =>
            url request = API_BASE_URL +:+ "/api/generate-speech"
            /\ method request = "POST"
            /\ exists doc,
                 body request = Some doc
                 /\ keys doc = ["occasion"; "audience"; "tone"; "length"; "template";
                                "topic"; "additional_context"; "language"]
                 /\ forall k, In k (keys doc) ->
                      exists s, get_prop doc k = Return (VStr s))
         (sent (run initialWorld events)).
Proof.
  intros Hev.
  eapply Forall_impl;
    [apply (sent_complete_until_reset events initialWorld Hev complete_initial);
     constructor|].
  intros request (d & Hd & ->).
  destruct (generateSpeech_fetch_complete d Hd)
    as (Hurl & Hmethod & o & a & t & l & m & p & c & g & Hbody & _).
  split; [done|]. split; [done|]. eexists. split; [exact Hbody|].
  split; [done|]. simpl.
  intros k [<-|[<-|[<-|[<-|[<-|[<-|[<-|[<-|[]]]]]]]]]; simpl; eauto.
Qed.

Lemma requests_until_reset_witness :
  Forall (fun request =>
            url request = API_BASE_URL +:+ "/api/generate-speech"
            /\ method request = "POST"
            /\ exists doc,
                 body request = Some doc
                 /\ keys doc = ["occasion"; "audience"; "tone"; "length"; "template";
                                "topic"; "additional_context"; "language"]
                 /\ forall k, In k (keys doc) ->
                      exists s, get_prop doc k = Return (VStr s))
         (sent (run initialWorld (to_review ++ [Click GenerateButton]))).
Proof.
  apply (requests_until_reset (to_review ++ [Click GenerateButton])).
  repeat constructor; discriminate.
Defined.

(** ** What a request carries *)

Lemma JSON_stringify_flat (ms : list (string * value)) :
  Forall (fun kv => flat kv.2) ms ->
  JSON_stringify (VObj ms) = Some (VObj (List.filter (fun kv => defined kv.2) ms)).
Proof.
  induction 1 as [|[k v] ms Hv _ IH]; [done|].
  simpl in IH |- *. injection IH as IH. rewrite IH.
  by destruct v.
Qed.

Lemma member_absent (k : string) (ms : list (string * value)) :
  ~ In k (List.map fst ms) -> member k ms = VUndefined.
Proof.
  induction ms as [|[k' v] ms IH]; simpl; [done|]. intros Hk.
  destruct (String.eqb_spec k k') as [->|_]; [tauto|]. apply IH. tauto.
Qed.

Lemma member_filter_defined (k : string) (ms : list (string * value)) :
  List.NoDup (List.map fst ms) ->
  member k (List.filter (fun kv => defined kv.2) ms) = member k ms.
Proof.
  induction ms as [|[k' v] ms IH]; simpl; [done|].
  intros Hnd. apply List.NoDup_cons_iff in Hnd as [Hk' Hnd].
  destruct (defined v) eqn:Hv; simpl.
  - destruct (String.eqb k k'); [done|]. by apply IH.
  - destruct v; try done. destruct (String.eqb_spec k k') as [->|_]; [|by apply IH].
    apply member_absent. intros Hin. apply Hk'.
    apply in_map_iff in Hin as (kv & <- & Hin). apply in_map.
    by apply filter_In in Hin as [Hin _].
Qed.

Lemma field_flat (d : WizardData) (k : string) : flat (field d k).
Proof. unfold field. by destruct (d !! k). Qed.

Lemma js_or_field (d : WizardData) (k : string) :
  js_or (field d k) (VStr "") = VStr (default "" (d !! k)).
Proof.
  unfold js_or, field. destruct (d !! k) as [s|]; simpl; [|done].
  by destruct (String.eqb_spec s "") as [->|_].
Qed.

Lemma payload_flat (d : WizardData) :
  exists ms, speechAPI.payload d = VObj ms
             /\ Forall (fun kv => flat kv.2) ms
             /\ List.map fst ms
                = ["occasion"; "audience"; "tone"; "length"; "template"; "topic";
                   "additional_context"; "language"].
Proof.
  eexists. split; [reflexivity|]. split; [|reflexivity].
  rewrite !js_or_field. repeat constructor; simpl; apply field_flat.
Qed.

(** The body of a request answers every property read as the object
    literal it was made from does. *)
Lemma generateSpeech_fetch_body (d : WizardData) :
  exists doc,
    body (speechAPI.generateSpeech_fetch d) = Some doc
    /\ (forall k, get_prop doc k = get_prop (speechAPI.payload d) k)
    /\ incl (keys doc)
            ["occasion"; "audience"; "tone"; "length"; "template"; "topic";
             "additional_context"; "language"].
Proof.
  destruct (payload_flat d) as (ms & Hms & Hflat & Hkeys).
  assert (Hnd : List.NoDup (List.map fst ms)).
  { rewrite Hkeys. repeat (apply List.NoDup_cons; [simpl; intuition discriminate|]).
    apply List.NoDup_nil. }
  exists (VObj (List.filter (fun kv => defined kv.2) ms)).
  split; [unfold speechAPI.generateSpeech_fetch; cbn [body]; rewrite Hms;
          by apply JSON_stringify_flat|].
  split.
  - intros k. rewrite Hms. simpl. by rewrite member_filter_defined.
  - rewrite <- Hkeys. intros k Hk. simpl in Hk.
    apply in_map_iff in Hk as (kv & <- & Hin). apply in_map.
    by apply filter_In in Hin as [Hin _].
Qed.

(** X2. The body of a request holds what the wizard data holds, whatever
    that is: each of [occasion], [audience], [tone], [length], [template]
    and [language] with the field's string, or not at all when the field is
    missing; [topic] and [additional_context] with the text of [topic] and
    [additionalContext], the empty string when missing; and no other key. *)
Theorem request_carries_fields (d : WizardData) :
  exists doc,
    body (speechAPI.generateSpeech_fetch d) = Some doc
    /\ get_prop doc "occasion" = Return (field d "occasion")
    /\ get_prop doc "audience" = Return (field d "audience")
    /\ get_prop doc "tone" = Return (field d "tone")
    /\ get_prop doc "length" = Return (field d "length")
    /\ get_prop doc "template" = Return (field d "template")
    /\ get_prop doc "language" = Return (field d "language")
    /\ get_prop doc "topic" = Return (VStr (default "" (d !! "topic")))
    /\ get_prop doc "additional_context"
       = Return (VStr (default "" (d !! "additionalContext")))
    /\ incl (keys doc)
            ["occasion"; "audience"; "tone"; "length"; "template"; "topic";
             "additional_context"; "language"].
Proof.
  destruct (generateSpeech_fetch_body d) as (doc & Hbody & Hget & Hkeys).
  exists doc. split; [exact Hbody|].
  rewrite !Hget. simpl. rewrite !js_or_field.
  repeat (split; [reflexivity|]). exact Hkeys.
Qed.

(** ** The requests of every run *)

Lemma step_made_from (P : WizardData -> Prop) (w : World) (e : event) :
  P (wizardData (session w)) ->
  Forall (made_from P) (sent w) ->
  Forall (made_from P) (sent (step w e)).
Proof.
  intros HP Hs. destruct (step_sent w e) as [->|(_ & _ & ->)]; [done|].
  apply Forall_app. split; [done|]. repeat constructor. by exists (wizardData (session w)).
Qed.

Lemma nextStep_wizardData (s : Session) : wizardData (nextStep s) = wizardData s.
Proof. unfold nextStep. by destruct (currentStep s <? 4). Qed.

Lemma prevStep_wizardData (s : Session) : wizardData (prevStep s) = wizardData s.
Proof. unfold prevStep. by destruct (currentStep s >? 0). Qed.

(** What an event does to the wizard data: an edit writes one field, a
    reset that is carried out writes the seven defaults, nothing else
    touches it. *)
Lemma step_wizardData (w : World) (e : event) :
  wizardData (session (step w e)) =
    match e with
    | Edit k v => <[k := v]> (wizardData (session w))
    | Click NewSpeechButton =>
        if clickable NewSpeechButton (session w)
        then wizardData resetSession
        else wizardData (session w)
    | _ => wizardData (session w)
    end.
Proof.
  destruct e as [k v|b|n o]; simpl; [done| |].
  - destruct b; destruct (clickable _ (session w)); simpl;
      auto using nextStep_wizardData, prevStep_wizardData.
  - destruct (waiting w !! n); [|done]. apply generateSpeech_resume_wizardData.
Qed.

Lemma five_insert (d : WizardData) (k v : string) : five d -> five (<[k := v]> d).
Proof.
  unfold five. intros H5. eapply Forall_impl; [exact H5|].
  intros key Hkey; simpl. rewrite lookup_insert. by case_decide.
Qed.

Lemma five_reset : five (wizardData resetSession).
Proof. unfold five. repeat constructor; by eexists. Qed.

Lemma step_five (w : World) (e : event) :
  five (wizardData (session w)) -> five (wizardData (session (step w e))).
Proof.
  intros H5. rewrite step_wizardData. destruct e as [k v|b|n o]; try done.
  - by apply five_insert.
  - destruct b; try done.
    destruct (clickable _ _); [apply five_reset|done].
Qed.

Lemma run_made_from_five (events : list event) (w : World) :
  five (wizardData (session w)) ->
  Forall (made_from five) (sent w) ->
  Forall (made_from five) (sent (run w events)).
Proof.
  revert w. induction events as [|e events IH]; intros w H5 Hs; simpl; [done|].
  apply IH; [by apply step_five|by apply step_made_from].
Qed.

(** X3. Whatever the user does, resets included, every request sent is a
    POST of JSON to the generation endpoint whose body has the seven keys
    [occasion], [audience], [tone], [length], [template], [topic] and
    [additional_context], then [language] or nothing, each with a string. *)
Theorem requests_of_every_run (events : list event) :
  Forall (fun request =>
            url request = API_BASE_URL +:+ "/api/generate-speech"
            /\ method request = "POST"
            /\ headers request = [("Content-Type", "application/json")]
            /\ exists doc,
                 body request = Some doc
                 /\ (keys doc = ["occasion"; "audience"; "tone"; "length"; "template";
                                 "topic"; "additional_context"]
                     \/ keys doc = ["occasion"; "audience"; "tone"; "length"; "template";
                                    "topic"; "additional_context"; "language"])
                 /\ forall k, In k (keys doc) ->
                      exists s, get_prop doc k = Return (VStr s))
         (sent (run initialWorld events)).
Proof.
  eapply Forall_impl.
  { apply (run_made_from_five events initialWorld); [|constructor].
    unfold five. repeat constructor; by eexists. }
  intros request (d & H5 & ->). do 3 (split; [done|]).
  unfold five in H5. rewrite !Forall_cons in H5.
  destruct H5 as ([o Ho] & [a Ha] & [t Ht] & [l Hl] & [m Hm] & _).
  unfold speechAPI.generateSpeech_fetch, speechAPI.payload. cbn [body].
  rewrite !js_or_field. unfold field. rewrite Ho, Ha, Ht, Hl, Hm.
  destruct (d !! "language") as [g|]; simpl; eexists; (split; [reflexivity|]);
    (split; [auto|]); simpl; intros k Hk;
    repeat (destruct Hk as [<-|Hk]; [simpl; eauto|]); done.
Qed.

(** ** What the screen can show *)

Lemma generateSpeech_resume_cases (d : WizardData) (o : completion Response) (s : Session) :
  (exists g, generateSpeech_resume d o s
             = setIsLoading false (setCurrentStep 4 (setGeneratedSpeech (Some g) s)))
  \/ (exists e, generateSpeech_resume d o s
                = setIsLoading false
                    (setError (Some ("Failed to generate speech: " +:+ message e)) s)).
Proof.
  unfold generateSpeech_resume.
  destruct (_ ← speechAPI.generateSpeech o; speech_of d _) as [g|e]; eauto.
Qed.

Ltac bools :=
  repeat match goal with
         | H : _ && _ = true |- _ => apply andb_true_iff in H as [? ?]
         | H : negb _ = true |- _ => apply negb_true_iff in H
         | H : (_ <? _) = true |- _ => apply Z.ltb_lt in H
         | H : (_ >? _) = true |- _ => apply Z.gtb_lt in H
         | H : (_ =? _) = true |- _ => apply Z.eqb_eq in H
         end.

Lemma clickable_next (s : Session) :
  clickable NextButton s = true -> currentStep s < 3.
Proof. unfold clickable; simpl. intros H. bools. lia. Qed.

Lemma clickable_previous (s : Session) :
  clickable PreviousButton s = true -> 0 < currentStep s < 4.
Proof. unfold clickable; simpl. intros H. bools. lia. Qed.

Lemma clickable_result (b : button) (s : Session) :
  b = GoBackButton \/ b = NewSpeechButton ->
  clickable b s = true -> currentStep s = 4 /\ is_Some (generatedSpeech s).
Proof.
  unfold clickable. intros [-> | ->]; simpl; intros H; bools;
    (split; [done|]); by destruct (generatedSpeech s).
Qed.

Lemma step_coherent (w : World) (e : event) : coherent w -> coherent (step w e).
Proof.
  intros (Hone & Hr & Hload & Hfour & Herr).
  split; [by apply step_one_in_flight|].
  split; [by apply step_range|].
  destruct e as [k v|b|n o]; simpl.
  - done.
  - destruct (clickable b (session w)) eqn:Hc; [|done].
    destruct b; simpl.
    + apply clickable_next in Hc. unfold nextStep.
      destruct (Z.ltb_spec (currentStep (session w)) 4); simpl; [|lia].
      repeat split; try done; try lia. all: intros; try lia.
      all: by apply Hload.
    + apply clickable_previous in Hc. unfold prevStep.
      destruct (Z.gtb_spec (currentStep (session w)) 0); simpl; [|lia].
      repeat split; try done; try lia. all: intros; try lia.
      all: by apply Hload.
    + apply clickable_generate in Hc as [H3 Hl].
      repeat split; try done; lia.
    + apply clickable_result in Hc as [H4 _]; [|by left].
      destruct (Hfour H4) as [_ Hnone].
      unfold prevStep. rewrite H4; simpl.
      repeat split; try done; try lia.
    + repeat split; try done; try lia.
  - destruct (waiting w !! n) as [d|] eqn:Hn; [|done]. cbn [session].
    assert (Hl : isLoading (session w) = true).
    { unfold one_in_flight in Hone. destruct (isLoading (session w)); [done|].
      by rewrite Hone in Hn. }
    destruct (Hload Hl) as [H3 Hnone].
    destruct (generateSpeech_resume_cases d o (session w)) as [[g ->]|[e' ->]]; simpl.
    + repeat split; try done.
    + repeat split; try done; try lia.
Qed.

Lemma run_coherent (events : list event) (w : World) :
  coherent w -> coherent (run w events).
Proof.
  revert w. induction events as [|e events IH]; intros w Hw; simpl; [done|].
  apply IH. by apply step_coherent.
Qed.

Lemma coherent_initial : coherent initialWorld.
Proof. repeat split; simpl; try done; lia. Qed.


(** X5. While a request is out none of Generate, Go Back and Generate New
    Speech can be clicked.  So a reset only happens with no request out, and
    then always leads to one and the same state: the initial one without
    [language]. *)
Theorem reset_only_when_idle (events : list event) :
  let w := run initialWorld events in
  (waiting w <> [] ->
   clickable GenerateButton (session w) = false
   /\ clickable GoBackButton (session w) = false
   /\ clickable NewSpeechButton (session w) = false)
  /\ (clickable NewSpeechButton (session w) = true ->
      step w (Click NewSpeechButton)
      = {| session := resetSession; waiting := []; sent := sent w |}).
Proof.
  cbv zeta. generalize (run_coherent events initialWorld coherent_initial).
  generalize (run initialWorld events). intros w (Hone & Hr & Hload & Hfour & Herr).
  unfold one_in_flight in Hone. split.
  - intros Hw. destruct (isLoading (session w)) eqn:Hl; [|done].
    destruct (Hload eq_refl) as [H3 _]. unfold clickable; simpl. rewrite Hl.
    rewrite andb_false_r.
    destruct (Z.eqb_spec (currentStep (session w)) 4); [lia|done].
  - intros Hc. unfold step. rewrite Hc.
    apply clickable_result in Hc as [H4 _]; [|by right].
    destruct (isLoading (session w)) eqn:Hl; [destruct (Hload eq_refl); lia|].
    unfold onClick, with_session, resetWizard, resetSession.
    rewrite Hone. f_equal.
    unfold setError, setGeneratedSpeech, setWizardData, setCurrentStep; simpl.
    rewrite Hl. f_equal.
Qed.

(** A speech was generated: the reset can be clicked and gives that state. *)
Lemma reset_only_when_idle_witness :
  let w := run initialWorld
             (to_review ++ [Click GenerateButton; Settle 0 (Return hello_response)]) in
  step w (Click NewSpeechButton)
  = {| session := resetSession; waiting := []; sent := sent w |}.
Proof.
  intros w. apply (reset_only_when_idle
                     (to_review ++ [Click GenerateButton; Settle 0 (Return hello_response)])).
  vm_compute. reflexivity.
Defined.

(** ** While the request is out *)





(** X7. A request sent from step 3 and answered with a 2xx status but a
    body that is not JSON, or is the JSON [null], counts as failed: the
    step, the stored result and the wizard data stay, the loading ends, and
    the stored error is "Failed to generate speech: " followed by a message,
    the parser's when the body did not parse. *)
Theorem submit_bad_body (w : World) (r : Response) :
  currentStep (session w) = 3 ->
  isLoading (session w) = false ->
  ok r = true ->
  (exists e, json r = Throw e) \/ json r = Return VNull ->
  let w' := step (submit w) (Settle (length (waiting w)) (Return r)) in
  currentStep (session w') = 3
  /\ isLoading (session w') = false
  /\ generatedSpeech (session w') = generatedSpeech (session w)
  /\ wizardData (session w') = wizardData (session w)
  /\ exists msg,
       error (session w') = Some ("Failed to generate speech: " +:+ msg)
       /\ forall e, json r = Throw e -> msg = message e.
Proof.
  intros H3 Hl Hok Hbody w'.
  assert (Hs : session w' = generateSpeech_resume (wizardData (session w))
                              (Return r) (session (submit w)))
    by exact (settle_after_submit w [] (Return r) H3 Hl).
  rewrite Hs, (submit_accepted w H3 Hl). cbn [session].
  unfold generateSpeech_resume. rewrite (generateSpeech_ok r Hok).
  destruct Hbody as [[e ->]| ->]; simpl; repeat split; try done;
    eexists; (split; [reflexivity|]).
  - by intros e' [= <-].
  - done.
Qed.

(** A 204 has no body: [response.json()] fails and the wizard reports it. *)
Lemma submit_bad_body_witness :
  let w := step (submit (run initialWorld to_review))
             (Settle 0 (Return {| status := 204;
                                  json := Throw (mkError "Unexpected end of JSON input") |})) in
  currentStep (session w) = 3
  /\ error (session w) = Some "Failed to generate speech: Unexpected end of JSON input".
Proof.
  intros w.
  destruct (submit_bad_body (run initialWorld to_review)
              {| status := 204; json := Throw (mkError "Unexpected end of JSON input") |}
              eq_refl eq_refl eq_refl (or_introl (ex_intro _ _ eq_refl)))
    as (H3 & _ & _ & _ & msg & Hmsg & Hparse).
  split; [exact H3|]. rewrite (Hparse _ eq_refl) in Hmsg. exact Hmsg.
Defined.

(** ** Navigation and edits compose *)

Lemma prevStep_nextStep (s : Session) :
  0 <= currentStep s < 4 -> prevStep (nextStep s) = s.
Proof.
  destruct s as [n d g l e]. unfold nextStep, prevStep, setCurrentStep; simpl.
  intros Hn. destruct (Z.ltb_spec n 4); [|lia]. simpl.
  destruct (Z.gtb_spec (n + 1) 0); [|lia]. simpl. f_equal. lia.
Qed.

Lemma nextStep_prevStep (s : Session) :
  0 < currentStep s <= 4 -> nextStep (prevStep s) = s.
Proof.
  destruct s as [n d g l e]. unfold nextStep, prevStep, setCurrentStep; simpl.
  intros Hn. destruct (Z.gtb_spec n 0); [|lia]. simpl.
  destruct (Z.ltb_spec (n - 1) 4); [|lia]. simpl. f_equal. lia.
Qed.

Lemma prevStep_step (s : Session) :
  currentStep (prevStep s) = if currentStep s >? 0 then currentStep s - 1 else currentStep s.
Proof. unfold prevStep. by destruct (currentStep s >? 0). Qed.

Lemma nextStep_step (s : Session) :
  currentStep (nextStep s) = if currentStep s <? 4 then currentStep s + 1 else currentStep s.
Proof. unfold nextStep. by destruct (currentStep s <? 4). Qed.

(** X8. Forth and back: where Next can be clicked (from a step that is
    not negative), Next then Previous gives the state back; where Previous
    can be clicked and Next is enabled on the step before, Previous then
    Next gives it back. *)
Theorem next_previous_round_trip (w : World) :
  (0 <= currentStep (session w) ->
   clickable NextButton (session w) = true ->
   run w [Click NextButton; Click PreviousButton] = w)
  /\ (clickable PreviousButton (session w) = true ->
      clickable NextButton (session (step w (Click PreviousButton))) = true ->
      run w [Click PreviousButton; Click NextButton] = w).
Proof.
  split.
  - intros H0 Hc. pose proof (clickable_next _ Hc) as H3.
    simpl. rewrite Hc. simpl.
    assert (clickable PreviousButton (nextStep (session w)) = true) as ->.
    { unfold clickable; simpl. rewrite nextStep_step.
      destruct (Z.ltb_spec (currentStep (session w)) 4); [|lia].
      rewrite andb_true_r, andb_true_iff, Z.ltb_lt, Z.gtb_lt. lia. }
    destruct w as [s calls requests]; unfold with_session; simpl in *.
    by rewrite prevStep_nextStep by lia.
  - intros Hp Hn. pose proof (clickable_previous _ Hp) as H04.
    simpl in Hn |- *. rewrite Hp in Hn |- *. simpl in Hn |- *. rewrite Hn.
    destruct w as [s calls requests]; unfold with_session; simpl in *.
    by rewrite nextStep_prevStep by lia.
Qed.

(** From the first screen with the two selections made, and from the tone
    step. *)
Lemma next_previous_round_trip_witness :
  let w0 := run initialWorld (edits_of [("occasion", "conference"); ("audience", "media")]) in
  let w1 := step w0 (Click NextButton) in
  run w0 [Click NextButton; Click PreviousButton] = w0
  /\ run w1 [Click PreviousButton; Click NextButton] = w1.
Proof.
  intros w0 w1. split.
  - apply (proj1 (next_previous_round_trip w0)); [simpl; lia|reflexivity].
  - apply (proj2 (next_previous_round_trip w1)); reflexivity.
Defined.

(** X9. Setting a field and reading it returns the value set; every other
    field reads as before and the rest of the state is untouched; setting
    the same field again replaces the value; setting it to what it holds
    changes nothing. *)
Theorem setField_round_trip (k v v' : string) (s : Session) :
  field (wizardData (setField k v s)) k = VStr v
  /\ (forall k', k' <> k -> field (wizardData (setField k v s)) k' = field (wizardData s) k')
  /\ setField k v s = setWizardData (<[k := v]> (wizardData s)) s
  /\ currentStep (setField k v s) = currentStep s
  /\ generatedSpeech (setField k v s) = generatedSpeech s
  /\ isLoading (setField k v s) = isLoading s
  /\ error (setField k v s) = error s
  /\ setField k v' (setField k v s) = setField k v' s
  /\ (wizardData s !! k = Some v -> setField k v s = s).
Proof.
  unfold setField, spread_with, setWizardData, field; simpl.
  repeat split.
  - by rewrite lookup_insert_eq.
  - intros k' Hk'. by rewrite lookup_insert_ne.
  - by rewrite insert_insert_eq.
  - intros Hk. rewrite insert_id by done. by destruct s.
Qed.

Lemma setField_round_trip_witness :
  setField "tone" "formal" initialSession = initialSession.
Proof.
  exact (proj2 (proj2 (proj2 (proj2 (proj2 (proj2 (proj2 (proj2
           (setField_round_trip "tone" "formal" "urgent" initialSession))))))))
           eq_refl).
Defined.

(** ** The two calls of [speechAPI] side by side *)

(** X10. [generateSpeech] returns a value exactly when the response has a
    2xx status and its body parses, and then returns the parsed body; with
    any other status it throws "HTTP error! status: " and the status,
    whatever the body; otherwise it throws what [fetch] or the parser
    threw.  The same response with a status outside 200..299 and a JSON
    body is a failure for [generateSpeech] and a success for
    [testConnection]. *)
Theorem generateSpeech_outcomes (fetched : completion Response) :
  (forall v, speechAPI.generateSpeech fetched = Return v
             <-> exists r, fetched = Return r /\ ok r = true /\ json r = Return v)
  /\ (forall r, fetched = Return r -> ok r = false ->
        speechAPI.generateSpeech fetched
        = Throw (mkError ("HTTP error! status: " +:+ pretty (status r)))
        /\ forall v, json r = Return v -> speechAPI.testConnection fetched = Return v)
  /\ (forall e, speechAPI.generateSpeech fetched = Throw e ->
        fetched = Throw e
        \/ exists r, fetched = Return r
                     /\ (ok r = true /\ json r = Throw e
                         \/ ok r = false
                            /\ message e = "HTTP error! status: " +:+ pretty (status r))).
Proof.
  split; [|split].
  - intros v. split.
    + destruct fetched as [r|e]; [|done]. destruct (ok r) eqn:Hok.
      * rewrite (generateSpeech_ok r Hok). eauto.
      * by rewrite (generateSpeech_not_ok r Hok).
    + intros (r & -> & Hok & Hj). by rewrite (generateSpeech_ok r Hok).
  - intros r -> Hok. split; [by apply generateSpeech_not_ok|].
    intros v Hj. unfold speechAPI.testConnection; simpl. by rewrite Hj.
  - intros e. destruct fetched as [r|e']; [|intros [= ->]; by left].
    destruct (ok r) eqn:Hok.
    + rewrite (generateSpeech_ok r Hok). intros Hj. right. eauto.
    + rewrite (generateSpeech_not_ok r Hok). intros [= <-]. right. eauto 6.
Qed.

(** ** What the controls let through *)

Ltac by_key k :=
  repeat match goal with
         | |- context [String.eqb k ?lit] =>
             destruct (String.eqb_spec k lit) as [->|?]; simpl in *
         | H : context [String.eqb k ?lit] |- _ =>
             destruct (String.eqb_spec k lit) as [->|?]; simpl in *
         end.

Lemma existsb_eqb_In (v : string) (vs : list string) :
  existsb (String.eqb v) vs = true <-> In v vs.
Proof.
  rewrite existsb_exists. split.
  - intros (x & Hx & Heq). apply String.eqb_eq in Heq. by subst.
  - intros Hv. exists v. split; [done|]. apply String.eqb_refl.
Qed.

Lemma offered_shown (k v : string) (s : Session) :
  offered k v s = true -> shown_at k = Some (currentStep s).
Proof.
  unfold offered. destruct (shown_at k) as [n|]; [|done].
  intros H. apply andb_true_iff in H as [H _]. apply Z.eqb_eq in H. by subst.
Qed.

Lemma offered_admissible (k v : string) (s : Session) :
  offered k v s = true -> admissible k v = true.
Proof.
  unfold offered, admissible, shown_at, options. simpl.
  by_key k; try done; intros H; apply andb_true_iff in H as [_ H];
    by rewrite ?H, ?orb_true_r.
Qed.

Lemma as_offered_initial : as_offered (wizardData initialSession).
Proof.
  unfold as_offered. simpl. repeat (apply map_Forall_insert_2; [done|]).
  apply map_Forall_empty.
Qed.

Lemma as_offered_reset : as_offered (wizardData resetSession).
Proof.
  unfold as_offered. simpl. apply map_Forall_delete.
  repeat (apply map_Forall_insert_2; [done|]). apply map_Forall_empty.
Qed.

Lemma step_as_offered (w : World) (e : event) :
  possible w e = true ->
  as_offered (wizardData (session w)) ->
  as_offered (wizardData (session (step w e))).
Proof.
  intros He Hw. rewrite step_wizardData. destruct e as [k v|b|n o]; try done.
  - apply map_Forall_insert_2; [|done]. by eapply offered_admissible.
  - destruct b; try done. destruct (clickable _ _); [apply as_offered_reset|done].
Qed.

Lemma run_made_from_offered (events : list event) (w : World) :
  on_screen w events = true ->
  five (wizardData (session w)) /\ as_offered (wizardData (session w)) ->
  Forall (made_from (fun d => five d /\ as_offered d)) (sent w) ->
  Forall (made_from (fun d => five d /\ as_offered d)) (sent (run w events)).
Proof.
  revert w. induction events as [|e events IH]; intros w Hev [H5 Ho] Hs; simpl; [done|].
  simpl in Hev. apply andb_true_iff in Hev as [He Hev].
  apply IH; [done| |by apply step_made_from].
  split; [by apply step_five|by apply step_as_offered].
Qed.

(** X11. As long as the user edits the fields through the controls on
    screen, every request carries, for each field with a select or cards,
    one of the values on offer: [tone] one of the six tones, [length] one
    of the nine minute counts, [occasion] and [audience] one of their
    options (the empty one included), [template] a card's id or the initial
    empty string, and [language] one of the three languages or, after a
    reset, nothing. *)
Theorem requests_carry_offered_values (events : list event) :
  on_screen initialWorld events = true ->
  Forall (fun request =>
            exists doc,
              body request = Some doc
              /\ forall k vs, options k = Some vs ->
                   (exists v, get_prop doc k = Return (VStr v)
                              /\ (In v vs \/ k = "template" /\ v = ""))
                   \/ (k = "language" /\ get_prop doc k = Return VUndefined))
         (sent (run initialWorld events)).
Proof.
  intros Hev. eapply Forall_impl.
  { apply (run_made_from_offered events initialWorld Hev); [|constructor].
    split; [|apply as_offered_initial]. unfold five. repeat constructor; by eexists. }
  intros request (d & [H5 Ho] & ->).
  destruct (generateSpeech_fetch_body d) as (doc & Hbody & Hget & _).
  exists doc. split; [exact Hbody|]. intros k vs Hk. rewrite Hget.
  assert (Hval : forall v, d !! k = Some v -> In v vs \/ k = "template" /\ v = "").
  { intros v Hv. specialize (Ho k v Hv). simpl in Ho. unfold admissible in Ho.
    rewrite Hk in Ho. apply orb_true_iff in Ho as [Ho|Ho].
    - left. by apply existsb_eqb_In.
    - right. apply andb_true_iff in Ho as [Hk' Hv'].
      apply String.eqb_eq in Hk', Hv'. by split. }
  unfold five in H5. rewrite !Forall_cons in H5.
  destruct H5 as ([o Hoc] & [a Ha] & [t Ht] & [l Hl] & [m Hm] & _).
  unfold options in Hk. by_key k; try done; unfold field;
    try (first [rewrite Hoc|rewrite Ha|rewrite Ht|rewrite Hl|rewrite Hm];
         left; by eauto).
  destruct (d !! "language") as [g|] eqn:Hg; [left; eauto|right; done].
Qed.

(** The way to the review step uses the controls of each step. *)
Lemma requests_carry_offered_values_witness :
  Forall (fun request =>
            exists doc,
              body request = Some doc
              /\ forall k vs, options k = Some vs ->
                   (exists v, get_prop doc k = Return (VStr v)
                              /\ (In v vs \/ k = "template" /\ v = ""))
                   \/ (k = "language" /\ get_prop doc k = Return VUndefined))
         (sent (run initialWorld (to_review ++ [Click GenerateButton]))).
Proof.
  exact (requests_carry_offered_values (to_review ++ [Click GenerateButton]) eq_refl).
Defined.

(** ** The guards of Next, and the way around them *)

Lemma non_empty_insert_ne (d : WizardData) (k v key : string) :
  k <> key -> non_empty d key -> non_empty (<[k := v]> d) key.
Proof.
  intros Hk (x & Hx & Hne). exists x. split; [|done]. by rewrite lookup_insert_ne.
Qed.

Lemma next_enabled (s : Session) :
  clickable NextButton s = true ->
  (currentStep s = 0 ->
   non_empty (wizardData s) "occasion" /\ non_empty (wizardData s) "audience")
  /\ (currentStep s = 2 -> non_empty (wizardData s) "template").
Proof.
  unfold clickable; simpl. intros H. apply andb_true_iff in H as [_ H].
  apply negb_true_iff, orb_false_iff in H as [H0 H2]. split; intros Hs.
  - rewrite Hs in H0. simpl in H0. apply orb_false_iff in H0 as [Ho Ha].
    apply negb_false_iff in Ho, Ha. split; by apply truthy_field.
  - rewrite Hs in H2. simpl in H2. apply negb_false_iff in H2.
    by apply truthy_field.
Qed.

Lemma step_in_order (w : World) (e : event) :
  possible w e = true ->
  leaves_review w e = false ->
  in_order w -> in_order (step w e).
Proof.
  intros Hposs Hstay (Hone & Hload & H1 & H3).
  split; [by apply step_one_in_flight|].
  destruct e as [k v|b|n o]; simpl.
  - simpl in Hposs. apply offered_shown in Hposs.
    unfold spread_with. split; [done|]. split.
    + intros Hs. destruct (H1 Hs) as [Ho Ha].
      split; apply non_empty_insert_ne; try done; intros ->; simpl in Hposs;
        injection Hposs as Hposs; lia.
    + intros Hs. apply non_empty_insert_ne; [|by apply H3].
      intros ->; simpl in Hposs. injection Hposs as Hposs. lia.
  - destruct (clickable b (session w)) eqn:Hc; [|done].
    destruct b; simpl.
    + pose proof (clickable_next _ Hc) as Hlt.
      destruct (next_enabled _ Hc) as [Hn0 Hn2].
      rewrite nextStep_isLoading, nextStep_wizardData, nextStep_step.
      destruct (Z.ltb_spec (currentStep (session w)) 4); [|lia].
      split; [intros Hl; specialize (Hload Hl); lia|]. split; intros Hs.
      * destruct (decide (currentStep (session w) = 0)); [by apply Hn0|].
        apply H1. lia.
      * apply Hn2. lia.
    + simpl in Hstay. pose proof (clickable_previous _ Hc) as Hlt.
      rewrite prevStep_isLoading, prevStep_wizardData, prevStep_step.
      destruct (Z.gtb_spec (currentStep (session w)) 0); [|lia].
      split; [congruence|]. split; intros Hs; [apply H1|apply H3]; lia.
    + apply clickable_generate in Hc as [Hs Hl].
      split; [done|]. by split.
    + apply clickable_result in Hc as [Hs _]; [|by left].
      rewrite prevStep_isLoading, prevStep_wizardData, prevStep_step, Hs. simpl.
      split; [intros Hl; specialize (Hload Hl); lia|].
      split; intros _; [apply H1|apply H3]; lia.
    + apply clickable_result in Hc as [Hs _]; [|by right].
      split; [intros Hl; specialize (Hload Hl); lia|]. split; intros; lia.
  - destruct (waiting w !! n) as [d|] eqn:Hn; [|done]. cbn [session].
    assert (Hl : isLoading (session w) = true).
    { unfold one_in_flight in Hone. destruct (isLoading (session w)); [done|].
      by rewrite Hone in Hn. }
    specialize (Hload Hl).
    rewrite generateSpeech_resume_wizardData, generateSpeech_resume_isLoading.
    split; [done|].
    split; intros _; [apply H1|apply H3]; lia.
Qed.

Lemma step_made_from_guarded (w : World) (e : event) :
  in_order w ->
  Forall (made_from guarded) (sent w) ->
  Forall (made_from guarded) (sent (step w e)).
Proof.
  intros (_ & _ & H1 & H3) Hs.
  destruct (step_sent w e) as [->|(-> & _ & Heq)]; [done|].
  unfold step in Heq |- *.
  destruct (clickable GenerateButton (session w)) eqn:Hc.
  - rewrite Heq. apply Forall_app. split; [done|]. repeat constructor.
    apply clickable_generate in Hc as [Hc _].
    exists (wizardData (session w)). split; [|done].
    destruct H1 as [Ho Ha]; [lia|]. repeat split; try done. apply H3. lia.
  - done.
Qed.

Lemma run_made_from_guarded (events : list event) (w : World) :
  on_screen w events = true ->
  waits w events = true ->
  in_order w ->
  Forall (made_from guarded) (sent w) ->
  Forall (made_from guarded) (sent (run w events)).
Proof.
  revert w. induction events as [|e events IH]; intros w Hev Hwait Hw Hs; simpl;
    [done|].
  simpl in Hev, Hwait.
  apply andb_true_iff in Hev as [He Hev]. apply andb_true_iff in Hwait as [Hst Hwait].
  apply negb_true_iff in Hst.
  apply IH; [done|done|by apply step_in_order|by apply step_made_from_guarded].
Qed.

(** X12. As long as the user edits the fields through the controls on
    screen and does not click Previous while a request is out, every
    request carries a non-empty [occasion], [audience] and [template]. *)
Theorem requests_pass_the_guards (events : list event) :
  on_screen initialWorld events = true ->
  waits initialWorld events = true ->
  Forall (fun request =>
            exists doc,
              body request = Some doc
              /\ forall k, In k ["occasion"; "audience"; "template"] ->
                   exists v, get_prop doc k = Return (VStr v) /\ v <> "")
         (sent (run initialWorld events)).
Proof.
  intros Hev Hwait. eapply Forall_impl.
  { apply (run_made_from_guarded events initialWorld Hev Hwait); [|constructor].
    repeat split; simpl; try done; intros; lia. }
  intros request (d & ((o & Ho & Hon) & (a & Ha & Han) & (t & Ht & Htn)) & ->).
  destruct (generateSpeech_fetch_body d) as (doc & Hbody & Hget & _).
  exists doc. split; [exact Hbody|]. intros k Hk. rewrite Hget.
  simpl in Hk. destruct Hk as [<-|[<-|[<-|[]]]]; simpl; unfold field.
  - rewrite Ho. eauto.
  - rewrite Ha. eauto.
  - rewrite Ht. eauto.
Qed.

(** Two speeches in a row, the user waiting for each answer. *)
Lemma requests_pass_the_guards_witness :
  Forall (fun request =>
            exists doc,
              body request = Some doc
              /\ forall k, In k ["occasion"; "audience"; "template"] ->
                   exists v, get_prop doc k = Return (VStr v) /\ v <> "")
         (sent (run initialWorld
                  (to_review ++ [Click GenerateButton; Settle 0 (Return hello_response);
                                 Click GoBackButton; Click GenerateButton]))).
Proof.
  exact (requests_pass_the_guards
           (to_review ++ [Click GenerateButton; Settle 0 (Return hello_response);
                          Click GoBackButton; Click GenerateButton])
           eq_refl eq_refl).
Defined.





